(** * NYC Subway Anomaly Detection: score bands, base paths, score fusion

    A shallow embedding of the dashboard's score utilities
    ([ui/lib/utils.ts]) and of its base-path helper ([ui/lib/basePath.ts]),
    of the table's paging ([ui/components/AnomalyTable.tsx]), of the
    thresholds the README states, and of the score fusion the README and
    the design document describe, with the properties stated about them.

    JavaScript numbers are IEEE 754 binary64 values; they are modelled by
    the Standard Library's [spec_float], whose comparison [SFcompare] is the
    IEEE comparison (unordered on NaN, [-0 = +0]). *)

From Stdlib Require Import ZArith QArith Qminmax Qabs Lia Lqa Bool List String Ascii.
From Stdlib Require Import Floats.SpecFloat Floats.PrimFloat Floats.FloatOps.
Import ListNotations.

Set Warnings "-inexact-float,-register-all".

(** ** Binary64 numbers *)

Module Js.

(** A numeric literal of the source, read as the nearest binary64 and
    evaluated where it is written. *)
Abbreviation lit x :=
  (ltac:(let v := eval vm_compute in (Prim2SF x%float) in exact v))
  (only parsing).

Definition is_nan (x : spec_float) : bool :=
  match x with S754_nan => true | _ => false end.

(** The relational operators of the language on numbers. *)
Definition lt (x y : spec_float) : bool := SFltb x y.
Definition gt (x y : spec_float) : bool := SFltb y x.
Definition le (x y : spec_float) : bool := SFleb x y.
Definition ge (x y : spec_float) : bool := SFleb y x.

(** A value of type [number | null | undefined]. *)
Inductive value : Type :=
| Null
| Undefined
| Number (x : spec_float).

(** [v == null] holds for [null] and [undefined] only. *)
Definition loose_eq_null (v : value) : bool :=
  match v with Null | Undefined => true | Number _ => false end.

(** The rational a finite number stands for ([0] for the others). *)
Definition to_Q (x : spec_float) : Q :=
  match x with
  | S754_finite s m e =>
      let n := if s then Zneg m else Zpos m in
      match e with
      | Zneg k => Qmake n (Pos.shiftl 1 (Npos k))
      | _ => inject_Z (n * 2 ^ e)
      end
  | _ => 0%Q
  end.

(** [Number.isNaN(v)]: [v] is the number NaN. *)
Definition Number_isNaN (v : value) : bool :=
  match v with Number x => is_nan x | _ => false end.

(** [Number(v)], also the conversion the relational operators apply. *)
Definition to_number (v : value) : spec_float :=
  match v with
  | Null => S754_zero false
  | Undefined => S754_nan
  | Number x => x
  end.

(** ** The order of the non-NaN numbers

    [key] sends a number that is not NaN to a triple of integers whose
    lexicographic order is the order [SFcompare] computes: the class
    (infinities outermost, zero in the middle), then the exponent, then
    the mantissa, both negated for negative numbers. *)
Definition key (x : spec_float) : Z * Z * Z :=
  match x with
  | S754_nan => (0, 0, 0)
  | S754_zero _ => (0, 0, 0)
  | S754_infinity true => (-2, 0, 0)
  | S754_infinity false => (2, 0, 0)
  | S754_finite true m e => (-1, - e, - Zpos m)
  | S754_finite false m e => (1, e, Zpos m)
  end%Z.

Definition lex_lt (p q : Z * Z * Z) : Prop :=
  let '(a1, b1, c1) := p in
  let '(a2, b2, c2) := q in
  (a1 < a2 \/ (a1 = a2 /\ (b1 < b2 \/ (b1 = b2 /\ c1 < c2))))%Z.

Definition lex_le (p q : Z * Z * Z) : Prop :=
  let '(a1, b1, c1) := p in
  let '(a2, b2, c2) := q in
  (a1 < a2 \/ (a1 = a2 /\ (b1 < b2 \/ (b1 = b2 /\ c1 <= c2))))%Z.

End Js.

(** ** [ui/lib/utils.ts]: bands, clamping, colours *)

Module Utils.

Inductive band_id : Type := low | watch | elevated | critical.

Record ScoreBand : Type := {
  id : band_id;
  min : spec_float;
  max : spec_float;
  color : string;
  label : string;
  tone : string
}.

Definition band_low : ScoreBand :=
  {| id := low; min := Js.lit 0.0; max := Js.lit 0.35;
     color := "#60a5fa"; label := "0.00 - 0.34"; tone := "Low" |}.
Definition band_watch : ScoreBand :=
  {| id := watch; min := Js.lit 0.35; max := Js.lit 0.6;
     color := "#facc15"; label := "0.35 - 0.59"; tone := "Watch" |}.
Definition band_elevated : ScoreBand :=
  {| id := elevated; min := Js.lit 0.6; max := Js.lit 0.85;
     color := "#fb923c"; label := "0.60 - 0.84"; tone := "Elevated" |}.
Definition band_critical : ScoreBand :=
  {| id := critical; min := Js.lit 0.85; max := Js.lit 1.01;
     color := "#ef4444"; label := "0.85 - 1.00"; tone := "Critical" |}.

Definition SCORE_BANDS : list ScoreBand :=
  [band_low; band_watch; band_elevated; band_critical].

(** [clampScore]: null, undefined and NaN give 0; below 0 gives 0; above
    1 gives 1; anything else is returned as a number. *)
Definition clampScore (score : Js.value) : spec_float :=
  if Js.loose_eq_null score || Js.Number_isNaN score then Js.lit 0
  else if Js.lt (Js.to_number score) (Js.lit 0) then Js.lit 0
  else if Js.gt (Js.to_number score) (Js.lit 1) then Js.lit 1
  else Js.to_number score.

(** The test of the loop of [scoreBand]: [s >= b.min && s < b.max]. *)
Definition in_band (s : spec_float) (b : ScoreBand) : bool :=
  Js.ge s (min b) && Js.lt s (max b).

(** The loop of [scoreBand]: the first band that holds [s], if any. *)
Fixpoint first_band (s : spec_float) (bands : list ScoreBand)
  : option ScoreBand :=
  match bands with
  | [] => None
  | b :: rest => if in_band s b then Some b else first_band s rest
  end.

(** [scoreBand]: the loop, then the last band as the fallback. *)
Definition scoreBand (score : Js.value) : ScoreBand :=
  let s := clampScore score in
  match first_band s SCORE_BANDS with
  | Some b => b
  | None => nth (List.length SCORE_BANDS - 1) SCORE_BANDS band_critical
  end.

Definition scoreToColor (score : spec_float) : string :=
  color (scoreBand (Js.Number score)).

Definition scoreToTone (score : spec_float) : string :=
  tone (scoreBand (Js.Number score)).

Definition scoreToTextColor (score : spec_float) : string :=
  match id (scoreBand (Js.Number score)) with
  | watch => "#1f2937"
  | _ => "#ffffff"
  end.

(** The four ways a number lies between the cut points of the bands. *)
Inductive band_case (s : spec_float) (b : ScoreBand) : Prop :=
| case_low :
    SFltb s (Js.lit 0.35) = true -> b = band_low -> band_case s b
| case_watch :
    SFleb (Js.lit 0.35) s = true -> SFltb s (Js.lit 0.6) = true ->
    b = band_watch -> band_case s b
| case_elevated :
    SFleb (Js.lit 0.6) s = true -> SFltb s (Js.lit 0.85) = true ->
    b = band_elevated -> band_case s b
| case_critical :
    SFleb (Js.lit 0.85) s = true -> b = band_critical -> band_case s b.

End Utils.

(** ** The Mapbox [step] expression of the map layer *)

Module Mapbox.

(** An expression as the source builds it: a JSON array of strings,
    numbers and nested arrays. *)
Inductive json : Type :=
| JStr (s : string)
| JNum (x : spec_float)
| JArr (items : list json).

Definition band (i : nat) : Utils.ScoreBand :=
  nth i Utils.SCORE_BANDS Utils.band_critical.

(** [mapboxScoreColorExpression]. *)
Definition mapboxScoreColorExpression : json :=
  JArr [
    JStr "step";
    JArr [JStr "to-number"; JArr [JStr "get"; JStr "anomaly_score"];
          JNum (Js.lit 0)];
    JStr (Utils.color (band 0));
    JNum (Utils.min (band 1));
    JStr (Utils.color (band 1));
    JNum (Utils.min (band 2));
    JStr (Utils.color (band 2));
    JNum (Utils.min (band 3));
    JStr (Utils.color (band 3))
  ].

(** The properties of a map feature; one that is missing reads as
    [undefined], which [get] turns into null. *)
Definition properties : Type := string -> Js.value.

(** Mapbox's [["to-number", ["get", name], fallback]]: the property when
    it is a number other than NaN, 0 when it is null, else the
    fallback. *)
Definition eval_number (props : properties) (e : json)
  : option spec_float :=
  match e with
  | JNum x => Some x
  | JArr [JStr "to-number"; JArr [JStr "get"; JStr name]; JNum fallback] =>
      match props name with
      | Js.Number x => if Js.is_nan x then Some fallback else Some x
      | Js.Null | Js.Undefined => Some (Js.lit 0)
      end
  | _ => None
  end.

(** The stops of Mapbox's [step], in ascending order: the output of the
    last stop that is at most the input (a stop applies from its own
    value on), and the output so far when the input is below the next
    stop. *)
Fixpoint eval_stops (x : spec_float) (current : string)
  (stops : list json) : option string :=
  match stops with
  | [] => Some current
  | JNum stop :: JStr output :: rest =>
      if Js.ge x stop then eval_stops x output rest else Some current
  | _ => None
  end.

(** [["step", input, output0, stop1, output1, ...]]. *)
Definition eval_step (props : properties) (e : json) : option string :=
  match e with
  | JArr (JStr "step" :: input :: JStr output0 :: stops) =>
      match eval_number props input with
      | Some x => eval_stops x output0 stops
      | None => None
      end
  | _ => None
  end.

(** A feature whose [anomaly_score] property is [v]. *)
Definition feature (v : Js.value) : properties :=
  fun name => if String.eqb name "anomaly_score" then v else Js.Undefined.

End Mapbox.

(** ** [ui/lib/basePath.ts] *)

Module BasePath.

Local Open Scope string_scope.

(** [s.startsWith(p)]. *)
Fixpoint startsWith (s p : string) {struct p} : bool :=
  match p with
  | EmptyString => true
  | String c p' =>
      match s with
      | EmptyString => false
      | String d s' => Ascii.eqb c d && startsWith s' p'
      end
  end.

(** A string is truthy when it is not empty. *)
Definition truthy (s : string) : bool := negb (String.eqb s "").

(** [s.replace(/\/+$/, '')]: the string without its final run of
    slashes. *)
Fixpoint strip_trailing_slashes (s : string) : string :=
  match s with
  | EmptyString => EmptyString
  | String c rest =>
      match strip_trailing_slashes rest with
      | EmptyString =>
          if Ascii.eqb c "/" then EmptyString else String c EmptyString
      | kept => String c kept
      end
  end.

(** [process.env.NEXT_PUBLIC_BASE_PATH || '']. *)
Definition rawBasePath (env : option string) : string :=
  match env with
  | Some v => if truthy v then v else ""
  | None => ""
  end.

Definition baseWithLeadingSlash (env : option string) : string :=
  let raw := rawBasePath env in
  if truthy raw
  then (if startsWith raw "/" then raw else "/" ++ raw)
  else "".

Definition BASE_PATH (env : option string) : string :=
  if String.eqb (baseWithLeadingSlash env) "/"
  then ""
  else strip_trailing_slashes (baseWithLeadingSlash env).

(** The path with a leading slash: [normalized] of [withBasePath]. *)
Definition normalized (path : string) : string :=
  if startsWith path "/" then path else "/" ++ path.

Definition withBasePath (env : option string) (path : string) : string :=
  if negb (truthy path)
  then (if truthy (BASE_PATH env) then BASE_PATH env else "/")
  else if negb (truthy (BASE_PATH env)) then normalized path
  else if String.eqb (normalized path) (BASE_PATH env)
          || startsWith (normalized path) (BASE_PATH env ++ "/")
  then normalized path
  else BASE_PATH env ++ normalized path.

End BasePath.

(** ** The operational thresholds of the README *)

Module Classification.

(** [src/README.md], "Operational thresholds": [>= 0.60] is an anomaly and
    [>= 0.85] a high anomaly.  A score, as the dashboard receives it, is a
    binary64 number, and each threshold is the literal read as a
    binary64. *)
Definition ANOMALY_THRESHOLD : spec_float := Js.lit 0.60.
Definition HIGH_ANOMALY_THRESHOLD : spec_float := Js.lit 0.85.

(** The README's "anomaly" ([is_anomaly] in the design document): the
    score is at least [0.60].  The engine that computes the flag is not
    among the sources. *)
Definition is_anomaly (anomaly_score : spec_float) : bool :=
  Js.ge anomaly_score ANOMALY_THRESHOLD.

(** The README's "high anomaly" ([is_high_anomaly] in the design
    document): the score is at least [0.85]. *)
Definition is_high_anomaly (anomaly_score : spec_float) : bool :=
  Js.ge anomaly_score HIGH_ANOMALY_THRESHOLD.

End Classification.

(** ** The relative-error score, over exact rationals *)

Module Fusion.

Local Open Scope Q_scope.

(** Modelled from the spec: [clip01] of section 4.6, the clipping of a
    number to [[0,1]]; the engine's source is not among the sources.
    Numbers are exact rationals here: rounding is not modelled. *)
Definition clip01 (x : Q) : Q := Qmax 0 (Qmin 1 x).

(** Modelled from the spec: section 4.6,
    [clip01(|residual| / max(predicted_headway_sec, floor-constant))]. *)
Definition relative_error_score (floor residual predicted_headway_sec : Q)
  : Q :=
  clip01 (Qabs residual / Qmax predicted_headway_sec floor).

End Fusion.

(** ** Score Fusion, in binary64 *)

Module Fusion64.

(** The arithmetic of binary64 numbers, rounded to the nearest, ties to
    even, with the infinities and the NaN of IEEE 754. *)
Definition mul : spec_float -> spec_float -> spec_float := SFmul 53 1024.
Definition add : spec_float -> spec_float -> spec_float := SFadd 53 1024.
Definition sub : spec_float -> spec_float -> spec_float := SFsub 53 1024.
Definition div : spec_float -> spec_float -> spec_float := SFdiv 53 1024.

(** Modelled from the spec: the [max] of section 4.6, the greater of two
    numbers by comparison; the first when neither is greater, as when one
    is NaN. *)
Definition max (x y : spec_float) : spec_float :=
  if Js.lt x y then y else x.



(** Modelled from the spec: [clip01] of section 4.6 on binary64 numbers;
    the engine's source is not among the sources.  A number below 0, minus
    infinity included, gives 0; a number above 1, plus infinity included,
    gives 1; a number of [[0,1]] gives itself.  Neither the README nor the
    spec says what [clip01] gives for NaN: [at_nan] stands for that value
    (NaN for a clip that lets NaN through, 0 or 1 for a clip made of a
    minimum and a maximum that do not). *)
Definition clip01 (at_nan x : spec_float) : spec_float :=
  if Js.is_nan x then at_nan
  else if Js.lt x (Js.lit 0) then Js.lit 0
  else if Js.gt x (Js.lit 1) then Js.lit 1
  else x.

(** Modelled from the spec: the weights of the README's formula and of
    section 4.6. *)
Definition w_ssl : spec_float := Js.lit 0.50.
Definition w_hst : spec_float := Js.lit 0.30.
Definition w_rel : spec_float := Js.lit 0.20.

(** Modelled from the spec: the sum inside the README's formula,
    [0.50 * ssl_residual_score + 0.30 * hst_score
     + 0.20 * relative_error_score], evaluated from left to right. *)
Definition weighted_sum (ssl hst rel : spec_float) : spec_float :=
  add (add (mul w_ssl ssl) (mul w_hst hst)) (mul w_rel rel).

(** Modelled from the spec: the README's final score and section 4.6,
    [clip01(0.50*ssl_residual_score + 0.30*hst_score
            + 0.20*relative_error_score)]. *)
Definition anomaly_score (at_nan ssl hst rel : spec_float) : spec_float :=
  clip01 at_nan (weighted_sum ssl hst rel).

(** Modelled from the spec: what reaches Score Fusion from the other
    components for one observation (sections 4.2 to 4.4).  Each number is
    any binary64 value, the infinities and NaN included. *)
Record Upstream : Type := {
  observation_count : N;
  residual : spec_float;
  predicted_headway_sec : spec_float;
  q90 : spec_float;
  q99 : spec_float;
  normalized_ensemble_score : spec_float
}.

(** Modelled from the spec: the quotient of section 4.3,
    [(|residual| - q90) / (q99 - q90 + smoothing-constant)], with IEEE's
    arithmetic: the difference of two infinities and the quotient of two
    zeros or of two infinities are NaN. *)
Definition residual_quotient (smoothing : spec_float) (u : Upstream)
  : spec_float :=
  div (sub (SFabs (residual u)) (q90 u))
    (add (sub (q99 u) (q90 u)) smoothing).

(** Modelled from the spec: the quotient of section 4.6,
    [|residual| / max(predicted_headway_sec, floor-constant)]. *)
Definition relative_error (floor : spec_float) (u : Upstream) : spec_float :=
  div (SFabs (residual u)) (max (predicted_headway_sec u) floor).

(** Modelled from the spec: section 4.3, the [clip01] of the quotient, and
    0 until the key has the minimum number of observations. *)
Definition ssl_residual_score (at_nan smoothing : spec_float)
  (minimum_count : N) (u : Upstream) : spec_float :=
  if (observation_count u <? minimum_count)%N then Js.lit 0
  else clip01 at_nan (residual_quotient smoothing u).

(** Modelled from the spec: section 4.4,
    [hst_score = clip01(normalized ensemble score)]. *)
Definition hst_score (at_nan : spec_float) (u : Upstream) : spec_float :=
  clip01 at_nan (normalized_ensemble_score u).

(** Modelled from the spec: section 4.6, the [clip01] of the quotient. *)
Definition relative_error_score (at_nan floor : spec_float) (u : Upstream)
  : spec_float :=
  clip01 at_nan (relative_error floor u).

(** Modelled from the spec: the fused score of an observation, each
    component clipped on its own before the combination. *)
Definition fuse (at_nan floor smoothing : spec_float) (minimum_count : N)
  (u : Upstream) : spec_float :=
  anomaly_score at_nan
    (ssl_residual_score at_nan smoothing minimum_count u)
    (hst_score at_nan u)
    (relative_error_score at_nan floor u).




End Fusion64.

(** ** Arrays and nullish values *)

Module JsStd.

(** [l.slice(start, end)]: a negative index counts from the end, an index
    past an end is brought back to it, and nothing is taken when the end
    is not after the start. *)
Definition slice {A : Type} (l : list A) (start stop : Z) : list A :=
  let len := Z.of_nat (List.length l) in
  let k := if (start <? 0)%Z then Z.max (len + start) 0 else Z.min start len in
  let final := if (stop <? 0)%Z then Z.max (len + stop) 0 else Z.min stop len in
  firstn (Z.to_nat (final - k)) (skipn (Z.to_nat k) l).

(** [v ?? d]: [d] when [v] is null or undefined. *)
Definition nullish (v d : Js.value) : Js.value :=
  match v with
  | Js.Null | Js.Undefined => d
  | Js.Number _ => v
  end.

End JsStd.

(** ** [ui/components/AnomalyTable.tsx]: pages and row scores *)

Module AnomalyTable.

Definition pageSize : Z := 20.

(** [Math.ceil(a / b)] for a length [a] and a positive [b]: the quotient
    is a binary64, exact enough at every array length for its ceiling to
    be the integer ceiling. *)
Definition ceil_div (a b : Z) : Z := (- ((- a) / b))%Z.

(** [Math.max(1, Math.ceil(rows.length / pageSize))]. *)
Definition totalPages {A : Type} (rows : list A) : Z :=
  Z.max 1 (ceil_div (Z.of_nat (List.length rows)) pageSize).

(** [Math.min(page, totalPages)]. *)
Definition currentPage {A : Type} (rows : list A) (page : Z) : Z :=
  Z.min page (totalPages rows).

(** The rows of the page shown:
    [rows.slice(start, start + pageSize)] with
    [start = (currentPage - 1) * pageSize]. *)
Definition paged {A : Type} (rows : list A) (page : Z) : list A :=
  let start := ((currentPage rows page - 1) * pageSize)%Z in
  JsStd.slice rows start (start + pageSize).

(** The handler of "Prev": [setPage((p) => Math.max(1, p - 1))]. *)
Definition onPrev (p : Z) : Z := Z.max 1 (p - 1).

(** The handler of "Next":
    [setPage((p) => Math.min(totalPages, p + 1))]. *)
Definition onNext {A : Type} (rows : list A) (p : Z) : Z :=
  Z.min (totalPages rows) (p + 1).

(** [disabled={currentPage <= 1}] and
    [disabled={currentPage >= totalPages}]. *)
Definition prevDisabled {A : Type} (rows : list A) (page : Z) : bool :=
  (currentPage rows page <=? 1)%Z.
Definition nextDisabled {A : Type} (rows : list A) (page : Z) : bool :=
  (totalPages rows <=? currentPage rows page)%Z.

(** The score of a row, [Number(r.anomaly_score ?? 0)]; the popups of the
    map compute the same from a feature's properties. *)
Definition row_score (anomaly_score : Js.value) : spec_float :=
  Js.to_number (JsStd.nullish anomaly_score (Js.Number (Js.lit 0))).

(** The state of the component, [rows] and [page], and what changes it:
    a fetch that answers ([setRows]), a change of route ([setPage(1)]),
    and the two buttons. *)
Record state (A : Type) : Type := { rows : list A; page : Z }.
Arguments rows {A} _.
Arguments page {A} _.

Inductive event (A : Type) : Type :=
| RowsFetched (data : list A)
| RouteChanged
| PrevClicked
| NextClicked.
Arguments RowsFetched {A} _.
Arguments RouteChanged {A}.
Arguments PrevClicked {A}.
Arguments NextClicked {A}.

(** [useState<Row[]>([])] and [useState(1)]. *)
Definition initial {A : Type} : state A := {| rows := []; page := 1 |}.

Definition step {A : Type} (s : state A) (e : event A) : state A :=
  match e with
  | RowsFetched data => {| rows := data; page := page s |}
  | RouteChanged => {| rows := rows s; page := 1 |}
  | PrevClicked => {| rows := rows s; page := onPrev (page s) |}
  | NextClicked => {| rows := rows s; page := onNext (rows s) (page s) |}
  end.

Definition run {A : Type} (s : state A) (es : list (event A)) : state A :=
  List.fold_left step es s.

End AnomalyTable.

(** ** [ui/next.config.js] *)

Module NextConfig.

(** [basePath]: the environment value without its final slashes, and
    nothing for a lone slash. *)
Definition basePath (env : option string) : string :=
  if String.eqb (BasePath.rawBasePath env) "/"
  then ""%string
  else BasePath.strip_trailing_slashes (BasePath.rawBasePath env).

End NextConfig.

(** ** Auxiliary notions for the statements *)

Module Aux.

(** The string ends with a slash. *)
Fixpoint ends_with_slash (s : string) : bool :=
  match s with
  | EmptyString => false
  | String c EmptyString => Ascii.eqb c "/"
  | String _ rest => ends_with_slash rest
  end.

(** The string holds slashes only. *)
Fixpoint only_slashes (s : string) : bool :=
  match s with
  | EmptyString => true
  | String c rest => Ascii.eqb c "/" && only_slashes rest
  end.

(** The pages [1 .. n]. *)
Definition pages (n : Z) : list Z :=
  List.map (fun i => Z.of_nat i + 1)%Z (List.seq 0 (Z.to_nat n)).

End Aux.

(** * Properties *)

(** ** The sources at concrete inputs *)

Example clampScore_half :
  Utils.clampScore (Js.Number (Js.lit 0.5)) = Js.lit 0.5.
Proof. reflexivity. Qed.

Example clampScore_above :
  Utils.clampScore (Js.Number (Js.lit 1.7)) = Js.lit 1.
Proof. reflexivity. Qed.

Example clampScore_neg_infinity :
  Utils.clampScore (Js.Number (S754_infinity true)) = Js.lit 0.
Proof. reflexivity. Qed.

Example clampScore_nan : Utils.clampScore (Js.Number S754_nan) = Js.lit 0.
Proof. reflexivity. Qed.

Example clampScore_undefined : Utils.clampScore Js.Undefined = Js.lit 0.
Proof. reflexivity. Qed.

Example clampScore_neg_zero :
  Utils.clampScore (Js.Number (S754_zero true)) = S754_zero true.
Proof. reflexivity. Qed.

Example scoreBand_0_6 :
  Utils.id (Utils.scoreBand (Js.Number (Js.lit 0.6))) = Utils.elevated.
Proof. reflexivity. Qed.

Example scoreBand_0_5999 :
  Utils.id (Utils.scoreBand (Js.Number (Js.lit 0.5999))) = Utils.watch.
Proof. reflexivity. Qed.

Example scoreBand_1 :
  Utils.id (Utils.scoreBand (Js.Number (Js.lit 1))) = Utils.critical.
Proof. reflexivity. Qed.

Example scoreBand_null : Utils.id (Utils.scoreBand Js.Null) = Utils.low.
Proof. reflexivity. Qed.

Example step_color_0_35 :
  Mapbox.eval_step (Mapbox.feature (Js.Number (Js.lit 0.35)))
    Mapbox.mapboxScoreColorExpression = Some "#facc15"%string.
Proof. reflexivity. Qed.

Example step_color_missing :
  Mapbox.eval_step (Mapbox.feature Js.Undefined)
    Mapbox.mapboxScoreColorExpression = Some "#60a5fa"%string.
Proof. reflexivity. Qed.

(** The literals of the bands are the binary64 numbers nearest to the
    decimals written: each is within half a unit in the last place. *)
Example band_literals_nearest :
  (Qabs (Js.to_Q (Js.lit 0.35) - 0.35) <= 1 # 2 ^ 55 /\
   Qabs (Js.to_Q (Js.lit 0.6) - 0.6) <= 1 # 2 ^ 54 /\
   Qabs (Js.to_Q (Js.lit 0.85) - 0.85) <= 1 # 2 ^ 54 /\
   Qabs (Js.to_Q (Js.lit 1.01) - 1.01) <= 1 # 2 ^ 53)%Q.
Proof. repeat split; vm_compute; discriminate. Qed.

Example BASE_PATH_vps :
  BasePath.BASE_PATH (Some "/nyc-subway-anomaly/"%string)
  = "/nyc-subway-anomaly"%string.
Proof. reflexivity. Qed.

Example BASE_PATH_slashes : BasePath.BASE_PATH (Some "//"%string) = ""%string.
Proof. reflexivity. Qed.

Example BASE_PATH_unset : BasePath.BASE_PATH None = ""%string.
Proof. reflexivity. Qed.

Example withBasePath_api :
  BasePath.withBasePath (Some "nyc-subway-anomaly"%string) "/api/routes"
  = "/nyc-subway-anomaly/api/routes"%string.
Proof. reflexivity. Qed.

Example withBasePath_prefixed :
  BasePath.withBasePath (Some "nyc-subway-anomaly"%string)
    "/nyc-subway-anomaly/api/routes"
  = "/nyc-subway-anomaly/api/routes"%string.
Proof. reflexivity. Qed.

Example withBasePath_empty :
  BasePath.withBasePath None "" = "/"%string.
Proof. reflexivity. Qed.

(** The weights are not negative and add up to one, in binary64 too. *)
Example weights_convex :
  Js.le (Js.lit 0) Fusion64.w_ssl = true /\
  Js.le (Js.lit 0) Fusion64.w_hst = true /\
  Js.le (Js.lit 0) Fusion64.w_rel = true /\
  Fusion64.add (Fusion64.add Fusion64.w_ssl Fusion64.w_hst) Fusion64.w_rel
  = Js.lit 1.
Proof. repeat split; reflexivity. Qed.

Example anomaly_score_all_one :
  Fusion64.anomaly_score S754_nan (Js.lit 1) (Js.lit 1) (Js.lit 1)
  = Js.lit 1.
Proof. vm_compute. reflexivity. Qed.

(** Without the clipping of the components the sum can be NaN: plus
    infinity and minus infinity meet in it. *)
Example weighted_sum_unclipped_nan :
  Fusion64.weighted_sum (S754_infinity false) (S754_infinity true) (Js.lit 1)
  = S754_nan.
Proof. reflexivity. Qed.

(** Extreme upstream values: an infinite residual over an infinite
    predicted headway is NaN before the clipping. *)
Example relative_error_of_infinities_nan :
  Fusion64.relative_error (Js.lit 1)
    {| Fusion64.observation_count := 100;
       Fusion64.residual := S754_infinity true;
       Fusion64.predicted_headway_sec := S754_infinity false;
       Fusion64.q90 := Js.lit 10;
       Fusion64.q99 := Js.lit 10;
       Fusion64.normalized_ensemble_score := S754_infinity true |}
  = S754_nan.
Proof. reflexivity. Qed.

(** With a [clip01] that sends NaN to 1, these upstream values give the
    components 1, 0 and 1 and the score 0.7. *)
Example fuse_extremes :
  Fusion64.fuse (Js.lit 1) (Js.lit 1) (Js.lit 0) 30
    {| Fusion64.observation_count := 100;
       Fusion64.residual := S754_infinity true;
       Fusion64.predicted_headway_sec := S754_infinity false;
       Fusion64.q90 := Js.lit 10;
       Fusion64.q99 := Js.lit 10;
       Fusion64.normalized_ensemble_score := S754_infinity true |}
  = Js.lit 0.7.
Proof. vm_compute. reflexivity. Qed.

(** With a [clip01] that lets NaN through, the same values give NaN. *)
Example fuse_nan_through :
  Fusion64.fuse S754_nan (Js.lit 1) (Js.lit 0) 30
    {| Fusion64.observation_count := 100;
       Fusion64.residual := S754_infinity true;
       Fusion64.predicted_headway_sec := S754_infinity false;
       Fusion64.q90 := Js.lit 10;
       Fusion64.q99 := Js.lit 10;
       Fusion64.normalized_ensemble_score := S754_infinity true |}
  = S754_nan.
Proof. vm_compute. reflexivity. Qed.

Example relative_error_score_tenth :
  (Fusion.relative_error_score 1 (-30) 300 == 0.1)%Q.
Proof. reflexivity. Qed.

(** ** Facts about the order of binary64 numbers *)

Section FloatOrder.

Variables x y : spec_float.
Hypothesis Hx : Js.is_nan x = false.
Hypothesis Hy : Js.is_nan y = false.

Lemma SFcompare_key :
  match SFcompare x y with
  | Some Lt => Js.lex_lt (Js.key x) (Js.key y)
  | Some Eq => Js.key x = Js.key y
  | Some Gt => Js.lex_lt (Js.key y) (Js.key x)
  | None => False
  end.
Proof using Hx Hy.
  destruct x as [sx | sx | | sx mx ex], y as [sy | sy | | sy my ey];
    try discriminate Hx; try discriminate Hy;
    try destruct sx; try destruct sy; cbn; try lia; try reflexivity.
  - change (Pos.compare_cont Eq mx my) with (Pos.compare mx my).
    destruct (Z.compare_spec ex ey); try lia.
    destruct (Pos.compare_spec mx my); cbn; try lia.
    subst. reflexivity.
  - change (Pos.compare_cont Eq mx my) with (Pos.compare mx my).
    destruct (Z.compare_spec ex ey); try lia.
    destruct (Pos.compare_spec mx my); cbn; try lia.
    subst. reflexivity.
Qed.

Lemma SFltb_key : SFltb x y = true <-> Js.lex_lt (Js.key x) (Js.key y).
Proof using Hx Hy.
  pose proof SFcompare_key as H. unfold SFltb.
  destruct (SFcompare x y) as [[ | | ] | ]; try contradiction;
    destruct (Js.key x) as [[a1 b1] c1], (Js.key y) as [[a2 b2] c2];
    cbn in *; split; intros; try discriminate; try reflexivity;
    try (inversion H; subst); lia.
Qed.

Lemma SFleb_key : SFleb x y = true <-> Js.lex_le (Js.key x) (Js.key y).
Proof using Hx Hy.
  pose proof SFcompare_key as H. unfold SFleb.
  destruct (SFcompare x y) as [[ | | ] | ]; try contradiction;
    destruct (Js.key x) as [[a1 b1] c1], (Js.key y) as [[a2 b2] c2];
    cbn in *; split; intros; try discriminate; try reflexivity;
    try (inversion H; subst); lia.
Qed.

Lemma SFltb_false_key :
  SFltb x y = false <-> Js.lex_le (Js.key y) (Js.key x).
Proof using Hx Hy.
  rewrite <- Bool.not_true_iff_false, SFltb_key.
  destruct (Js.key x) as [[a1 b1] c1], (Js.key y) as [[a2 b2] c2].
  cbn. lia.
Qed.

Lemma SFleb_false_key :
  SFleb x y = false <-> Js.lex_lt (Js.key y) (Js.key x).
Proof using Hx Hy.
  rewrite <- Bool.not_true_iff_false, SFleb_key.
  destruct (Js.key x) as [[a1 b1] c1], (Js.key y) as [[a2 b2] c2].
  cbn. lia.
Qed.

End FloatOrder.

Lemma SFleb_not_nan x y :
  SFleb x y = true -> Js.is_nan x = false /\ Js.is_nan y = false.
Proof. destruct x, y; cbn; intros; try discriminate; auto. Qed.

(** Comparisons become statements about keys, which [lia] decides once the
    key of each variable is split into its three components. *)
Ltac nan_side := first [assumption | reflexivity].

Ltac to_keys :=
  repeat match goal with
  | H : SFltb _ _ = true |- _ => apply SFltb_key in H; [ | nan_side | nan_side]
  | H : SFleb _ _ = true |- _ => apply SFleb_key in H; [ | nan_side | nan_side]
  | H : SFltb _ _ = false |- _ =>
      apply SFltb_false_key in H; [ | nan_side | nan_side]
  | H : SFleb _ _ = false |- _ =>
      apply SFleb_false_key in H; [ | nan_side | nan_side]
  end;
  try match goal with
  | |- SFltb _ _ = true => apply SFltb_key; [nan_side | nan_side | ]
  | |- SFleb _ _ = true => apply SFleb_key; [nan_side | nan_side | ]
  | |- SFltb _ _ = false => apply SFltb_false_key; [nan_side | nan_side | ]
  | |- SFleb _ _ = false => apply SFleb_false_key; [nan_side | nan_side | ]
  end.

Ltac split_key x :=
  let a := fresh "a" in let b := fresh "b" in let c := fresh "c" in
  destruct (Js.key x) as [[a b] c]; cbn in *.

(** ** [clampScore] *)

Lemma clampScore_not_nan score : Js.is_nan (Utils.clampScore score) = false.
Proof.
  unfold Utils.clampScore.
  destruct score as [ | | x]; try reflexivity.
  cbn. destruct (Js.is_nan x) eqn:Hn; [reflexivity | ].
  destruct (Js.lt x (Js.lit 0)); [reflexivity | ].
  destruct (Js.gt x (Js.lit 1)); [reflexivity | exact Hn].
Qed.

Lemma clampScore_bounds score :
  SFleb (Js.lit 0) (Utils.clampScore score) = true /\
  SFleb (Utils.clampScore score) (Js.lit 1) = true.
Proof.
  unfold Utils.clampScore.
  destruct score as [ | | x]; try (split; reflexivity).
  cbn. destruct (Js.is_nan x) eqn:Hn; [split; reflexivity | ].
  unfold Js.lt, Js.gt.
  destruct (SFltb x (Js.lit 0)) eqn:H0; [split; reflexivity | ].
  destruct (SFltb (Js.lit 1) x) eqn:H1; [split; reflexivity | ].
  split; to_keys; split_key x; lia.
Qed.

Lemma clampScore_unit x :
  SFleb (Js.lit 0) x = true -> SFleb x (Js.lit 1) = true ->
  Utils.clampScore (Js.Number x) = x.
Proof.
  intros H0 H1. unfold Utils.clampScore. cbn.
  destruct (SFleb_not_nan _ _ H0) as [_ Hn]. rewrite Hn.
  unfold Js.lt, Js.gt.
  destruct (SFltb x (Js.lit 0)) eqn:E0;
    [exfalso; to_keys; split_key x; lia | ].
  destruct (SFltb (Js.lit 1) x) eqn:E1;
    [exfalso; to_keys; split_key x; lia | reflexivity].
Qed.

(** ** The bands *)

(** The intervals of the bands cover [[0, 1.01)]: the loop finds a band
    for every number there. *)
Lemma first_band_cover s :
  SFleb (Js.lit 0) s = true -> SFltb s (Js.lit 1.01) = true ->
  exists b,
    Utils.first_band s Utils.SCORE_BANDS = Some b /\ Utils.band_case s b.
Proof.
  intros H0 H1.
  destruct (SFleb_not_nan _ _ H0) as [_ Hn].
  unfold Utils.SCORE_BANDS, Utils.first_band, Utils.in_band, Js.ge, Js.lt.
  cbn [Utils.min Utils.max Utils.band_low Utils.band_watch
       Utils.band_elevated Utils.band_critical].
  rewrite H0, H1. cbn [andb].
  destruct (SFltb s (Js.lit 0.35)) eqn:E1.
  { eexists; split; [reflexivity | ]. now apply Utils.case_low. }
  assert (G1 : SFleb (Js.lit 0.35) s = true)
    by (to_keys; split_key s; lia).
  rewrite G1. cbn [andb].
  destruct (SFltb s (Js.lit 0.6)) eqn:E2.
  { eexists; split; [reflexivity | ]. now apply Utils.case_watch. }
  assert (G2 : SFleb (Js.lit 0.6) s = true)
    by (to_keys; split_key s; lia).
  rewrite G2. cbn [andb].
  destruct (SFltb s (Js.lit 0.85)) eqn:E3.
  { eexists; split; [reflexivity | ]. now apply Utils.case_elevated. }
  assert (G3 : SFleb (Js.lit 0.85) s = true)
    by (to_keys; split_key s; lia).
  rewrite G3. cbn [andb].
  eexists; split; [reflexivity | ]. now apply Utils.case_critical.
Qed.

Lemma first_band_unit s :
  SFleb (Js.lit 0) s = true -> SFleb s (Js.lit 1) = true ->
  exists b,
    Utils.first_band s Utils.SCORE_BANDS = Some b /\ Utils.band_case s b.
Proof.
  intros H0 H1. apply first_band_cover; [exact H0 | ].
  destruct (SFleb_not_nan _ _ H0) as [_ Hn].
  to_keys; split_key s; lia.
Qed.

Lemma scoreBand_first_band score b :
  Utils.first_band (Utils.clampScore score) Utils.SCORE_BANDS = Some b ->
  Utils.scoreBand score = b.
Proof. intros H. unfold Utils.scoreBand. now rewrite H. Qed.

(** A band that holds a number of [[0,1]] is the band of its case. *)
Lemma in_band_unique s b b' :
  Js.is_nan s = false -> Utils.band_case s b ->
  In b' Utils.SCORE_BANDS -> Utils.in_band s b' = true -> b' = b.
Proof.
  intros Hn Hc Hin Hb.
  unfold Utils.in_band, Js.ge, Js.lt in Hb.
  apply andb_true_iff in Hb. destruct Hb as [Hmin Hmax].
  cbn in Hin.
  destruct Hin as [<- | [<- | [<- | [<- | []]]]]; cbn in Hmin, Hmax;
    destruct Hc as [C1 -> | C1 C2 -> | C1 C2 -> | C1 ->];
    try reflexivity; exfalso;
    to_keys; split_key s; lia.
Qed.

(** The number a row of the table and a popup of the map print is
    [Number(anomaly_score ?? 0)] as it is, formatted by [toFixed(2)]: a
    received score of 2 is shown as 2, which is not in [[0,1]], while
    [clampScore] sends it to 1. *)
Lemma displayed_score_not_clamped :
  Utils.clampScore (Js.Number (Js.lit 2)) = Js.lit 1 /\
  AnomalyTable.row_score (Js.Number (Js.lit 2)) = Js.lit 2 /\
  ~ (Js.le (Js.lit 0) (AnomalyTable.row_score (Js.Number (Js.lit 2))) = true
     /\ Js.le (AnomalyTable.row_score (Js.Number (Js.lit 2))) (Js.lit 1)
        = true).
Proof.
  split; [reflexivity | ]. split; [reflexivity | ].
  intros [_ H]. discriminate H.
Qed.

(** C1, amended. For every input (a number below 0, above 1, inside
    [[0,1]], an infinity, NaN, null or undefined), the score [clampScore]
    returns is a number [v] with [0 <= v <= 1], and that clamped score is
    what the band, the colour and the tone of a row or popup are computed
    from.  The number printed, [Number(anomaly_score ?? 0)], is not
    clamped: it lies in [[0,1]] exactly when it is the clamped score, that
    is, when the received score is null, missing or a number of
    [[0,1]]. *)
Theorem clampScore_in_unit_interval_not_displayed (score : Js.value) :
  (Js.le (Js.lit 0) (Utils.clampScore score) = true /\
   Js.le (Utils.clampScore score) (Js.lit 1) = true) /\
  Utils.clampScore (Js.Number (AnomalyTable.row_score score))
  = Utils.clampScore score /\
  (Js.le (Js.lit 0) (AnomalyTable.row_score score) = true /\
   Js.le (AnomalyTable.row_score score) (Js.lit 1) = true <->
   AnomalyTable.row_score score = Utils.clampScore score) /\
  (Js.le (Js.lit 0) (AnomalyTable.row_score score) = true /\
   Js.le (AnomalyTable.row_score score) (Js.lit 1) = true <->
   match score with
   | Js.Null | Js.Undefined => True
   | Js.Number x => Js.le (Js.lit 0) x = true /\ Js.le x (Js.lit 1) = true
   end).
Proof.
  split; [exact (clampScore_bounds score) | ].
  split; [destruct score; reflexivity | ].
  split.
  - split.
    + intros [H0 H1]. destruct score as [ | | x]; try reflexivity.
      symmetry. now apply clampScore_unit.
    + intros H. rewrite H. exact (clampScore_bounds score).
  - destruct score as [ | | x]; cbn; [ | | tauto];
      (split; [trivial | intros _; split; reflexivity]).
Qed.

(** C8. For every input (any number, NaN, null or undefined), the loop of
    [scoreBand] finds a band, so the fallback after the loop is not
    reached; the band returned is one of the four of [SCORE_BANDS]; it
    holds the clamped score in its interval [[min, max)], and it is the
    only band that does.  The reason is that the clamped score lies in
    [[0,1]] and the intervals cover [[0, 1.01)]: the loop finds a band for
    every number from 0 up to, not including, 1.01. *)
Theorem scoreBand_total (score : Js.value) :
  (exists b : Utils.ScoreBand,
     Utils.first_band (Utils.clampScore score) Utils.SCORE_BANDS = Some b /\
     Utils.scoreBand score = b /\
     In b Utils.SCORE_BANDS /\
     Utils.in_band (Utils.clampScore score) b = true /\
     forall b' : Utils.ScoreBand,
       In b' Utils.SCORE_BANDS ->
       Utils.in_band (Utils.clampScore score) b' = true -> b' = b) /\
  (forall s : spec_float,
     Js.ge s (Js.lit 0) = true -> Js.lt s (Js.lit 1.01) = true ->
     exists b : Utils.ScoreBand,
       Utils.first_band s Utils.SCORE_BANDS = Some b).
Proof.
  split;
    [ | intros s H0 H1;
        destruct (first_band_cover s H0 H1) as [b [Hb _]]; now exists b].
  destruct (clampScore_bounds score) as [H0 H1].
  destruct (first_band_unit _ H0 H1) as [b [Hb Hc]].
  exists b. split; [exact Hb | ].
  split; [now apply scoreBand_first_band | ].
  assert (Hin : In b Utils.SCORE_BANDS)
    by (destruct Hc; subst b; cbn; tauto).
  split; [exact Hin | ].
  split.
  - clear Hin. revert Hb. unfold Utils.SCORE_BANDS. cbn [Utils.first_band].
    repeat match goal with
    | |- context [if Utils.in_band ?s ?c then _ else _] =>
        destruct (Utils.in_band s c) eqn:?
    end; intros [= <-] || discriminate; assumption.
  - intros b' Hin' Hb'.
    eapply in_band_unique; eauto using clampScore_not_nan.
Qed.

(** ** The map layer's colour *)

Lemma eval_step_number (s : spec_float) :
  Js.is_nan s = false ->
  Mapbox.eval_step (Mapbox.feature (Js.Number s))
    Mapbox.mapboxScoreColorExpression
  = Mapbox.eval_stops s (Utils.color Utils.band_low)
      [Mapbox.JNum (Js.lit 0.35); Mapbox.JStr (Utils.color Utils.band_watch);
       Mapbox.JNum (Js.lit 0.6); Mapbox.JStr (Utils.color Utils.band_elevated);
       Mapbox.JNum (Js.lit 0.85);
       Mapbox.JStr (Utils.color Utils.band_critical)].
Proof.
  intros Hn. unfold Mapbox.eval_step, Mapbox.mapboxScoreColorExpression.
  cbn. rewrite Hn. reflexivity.
Qed.

Lemma eval_stops_band_case (s : spec_float) (b : Utils.ScoreBand) :
  Js.is_nan s = false -> Utils.band_case s b ->
  Mapbox.eval_stops s (Utils.color Utils.band_low)
      [Mapbox.JNum (Js.lit 0.35); Mapbox.JStr (Utils.color Utils.band_watch);
       Mapbox.JNum (Js.lit 0.6); Mapbox.JStr (Utils.color Utils.band_elevated);
       Mapbox.JNum (Js.lit 0.85);
       Mapbox.JStr (Utils.color Utils.band_critical)]
  = Some (Utils.color b).
Proof.
  intros Hn Hc. unfold Mapbox.eval_stops, Js.ge.
  destruct Hc as [C1 -> | C1 C2 -> | C1 C2 -> | C1 ->].
  - replace (SFleb (Js.lit 0.35) s) with false
      by (symmetry; to_keys; split_key s; lia).
    reflexivity.
  - rewrite C1.
    replace (SFleb (Js.lit 0.6) s) with false
      by (symmetry; to_keys; split_key s; lia).
    reflexivity.
  - replace (SFleb (Js.lit 0.35) s) with true
      by (symmetry; to_keys; split_key s; lia).
    rewrite C1.
    replace (SFleb (Js.lit 0.85) s) with false
      by (symmetry; to_keys; split_key s; lia).
    reflexivity.
  - replace (SFleb (Js.lit 0.35) s) with true
      by (symmetry; to_keys; split_key s; lia).
    replace (SFleb (Js.lit 0.6) s) with true
      by (symmetry; to_keys; split_key s; lia).
    rewrite C1. reflexivity.
Qed.

(** Outside [[0,1]] too the layer and the badges agree: a score below 0,
    NaN, null or a missing property is coloured as 0, a score above 1
    as 1. *)
Lemma mapbox_color_any_value (v : Js.value) :
  Mapbox.eval_step (Mapbox.feature v) Mapbox.mapboxScoreColorExpression
  = Some (Utils.color (Utils.scoreBand v)).
Proof.
  destruct v as [ | | x]; try reflexivity.
  destruct (Js.is_nan x) eqn:Hn; [destruct x; try discriminate; reflexivity | ].
  rewrite (eval_step_number x Hn).
  destruct (clampScore_bounds (Js.Number x)) as [H0 H1].
  destruct (first_band_unit _ H0 H1) as [b [Hb Hc]].
  rewrite (scoreBand_first_band _ _ Hb).
  revert Hb Hc H0 H1. unfold Utils.clampScore. cbn. rewrite Hn.
  unfold Js.lt, Js.gt.
  destruct (SFltb x (Js.lit 0)) eqn:E0.
  { intros [= <-] _ _ _. unfold Mapbox.eval_stops, Js.ge.
    replace (SFleb (Js.lit 0.35) x) with false
      by (symmetry; to_keys; split_key x; lia).
    reflexivity. }
  destruct (SFltb (Js.lit 1) x) eqn:E1.
  { intros [= <-] _ _ _. unfold Mapbox.eval_stops, Js.ge.
    replace (SFleb (Js.lit 0.35) x) with true
      by (symmetry; to_keys; split_key x; lia).
    replace (SFleb (Js.lit 0.6) x) with true
      by (symmetry; to_keys; split_key x; lia).
    replace (SFleb (Js.lit 0.85) x) with true
      by (symmetry; to_keys; split_key x; lia).
    reflexivity. }
  intros _ Hc _ _. now apply eval_stops_band_case.
Qed.

(** C9. For every score [s] with [0 <= s <= 1], the colour the Mapbox
    [step] expression of [mapboxScoreColorExpression] selects for a feature
    whose [anomaly_score] is [s] is the colour of [scoreBand(s)]: the map
    layer and the badges use one mapping from scores to colours. *)
Theorem mapbox_color_is_band_color (s : spec_float) :
  Js.le (Js.lit 0) s = true -> Js.le s (Js.lit 1) = true ->
  Mapbox.eval_step (Mapbox.feature (Js.Number s))
    Mapbox.mapboxScoreColorExpression
  = Some (Utils.scoreToColor s).
Proof.
  unfold Js.le. intros H0 H1.
  destruct (SFleb_not_nan _ _ H0) as [_ Hn].
  destruct (first_band_unit _ H0 H1) as [b [Hb Hc]].
  rewrite (eval_step_number s Hn), (eval_stops_band_case s b Hn Hc).
  unfold Utils.scoreToColor.
  rewrite (scoreBand_first_band (Js.Number s) b); [reflexivity | ].
  now rewrite (clampScore_unit s H0 H1).
Qed.

Lemma mapbox_color_is_band_color_witness :
  Js.le (Js.lit 0) (Js.lit 0.6) = true /\
  Js.le (Js.lit 0.6) (Js.lit 1) = true /\
  Mapbox.eval_step (Mapbox.feature (Js.Number (Js.lit 0.6)))
    Mapbox.mapboxScoreColorExpression
  = Some (Utils.scoreToColor (Js.lit 0.6)).
Proof.
  split; [reflexivity | ]. split; [reflexivity | ].
  apply (mapbox_color_is_band_color (Js.lit 0.6)); reflexivity.
Defined.

(** ** The thresholds *)

(** C2. For every score [s] with [0 <= s <= 1]: the event is an anomaly
    exactly when [s >= 0.60] and a high anomaly exactly when [s >= 0.85];
    the band of [s] is 'elevated' or 'critical' exactly when [s >= 0.60]
    and 'critical' exactly when [s >= 0.85]; and the lower ends of the
    bands 'elevated' and 'critical' are these two thresholds. *)
Theorem thresholds_are_band_cut_points (s : spec_float) :
  Js.le (Js.lit 0) s = true -> Js.le s (Js.lit 1) = true ->
  (Classification.is_anomaly s = true <-> Js.ge s (Js.lit 0.60) = true) /\
  (Classification.is_high_anomaly s = true <-> Js.ge s (Js.lit 0.85) = true) /\
  (Js.ge s (Js.lit 0.60) = true <->
     Utils.id (Utils.scoreBand (Js.Number s)) = Utils.elevated \/
     Utils.id (Utils.scoreBand (Js.Number s)) = Utils.critical) /\
  (Js.ge s (Js.lit 0.85) = true <->
     Utils.id (Utils.scoreBand (Js.Number s)) = Utils.critical) /\
  Utils.min Utils.band_elevated = Classification.ANOMALY_THRESHOLD /\
  Utils.min Utils.band_critical = Classification.HIGH_ANOMALY_THRESHOLD.
Proof.
  unfold Js.le, Js.ge. intros H0 H1.
  destruct (SFleb_not_nan _ _ H0) as [_ Hn].
  destruct (first_band_unit _ H0 H1) as [b [Hb Hc]].
  rewrite (scoreBand_first_band (Js.Number s) b)
    by now rewrite (clampScore_unit s H0 H1).
  split; [reflexivity | ]. split; [reflexivity | ].
  repeat split; try reflexivity;
    destruct Hc as [C1 -> | C1 C2 -> | C1 C2 -> | C1 ->]; cbn;
    intros; try tauto; try discriminate;
    try (destruct H; discriminate);
    try (exfalso; to_keys; split_key s; lia);
    try (to_keys; split_key s; lia).
Qed.

Lemma thresholds_are_band_cut_points_witness :
  Js.le (Js.lit 0) (Js.lit 0.85) = true /\
  Js.le (Js.lit 0.85) (Js.lit 1) = true /\
  Classification.is_high_anomaly (Js.lit 0.85) = true /\
  Utils.id (Utils.scoreBand (Js.Number (Js.lit 0.85))) = Utils.critical.
Proof.
  split; [reflexivity | ]. split; [reflexivity | ].
  destruct (thresholds_are_band_cut_points (Js.lit 0.85)) as
    [_ [Hhigh [_ [Hband _]]]]; [reflexivity | reflexivity | ].
  split; [apply Hhigh | apply Hband]; reflexivity.
Defined.

(** ** Base paths *)

Section BasePathFacts.

Local Open Scope string_scope.

Lemma append_String_assoc (a b c : string) : (a ++ b) ++ c = a ++ (b ++ c).
Proof.
  induction a as [ | x a IH]; [reflexivity | ].
  change (String x ((a ++ b) ++ c) = String x (a ++ (b ++ c))).
  now rewrite IH.
Qed.

Lemma startsWith_append (p s : string) :
  BasePath.startsWith (p ++ s) p = true.
Proof.
  induction p as [ | c p IH]; [reflexivity | ].
  change (Ascii.eqb c c && BasePath.startsWith (p ++ s) p = true).
  now rewrite Ascii.eqb_refl, IH.
Qed.

Lemma truthy_false (s : string) : BasePath.truthy s = false <-> s = "".
Proof.
  unfold BasePath.truthy. rewrite negb_false_iff. apply String.eqb_eq.
Qed.

Lemma truthy_true (s : string) : BasePath.truthy s = true <-> s <> "".
Proof.
  unfold BasePath.truthy. rewrite negb_true_iff. apply String.eqb_neq.
Qed.

Lemma truthy_String c s : BasePath.truthy (String c s) = true.
Proof. reflexivity. Qed.

Lemma startsWith_slash_String (s : string) :
  BasePath.startsWith (String "/" s) "/" = true.
Proof. reflexivity. Qed.

Lemma startsWith_slash_inv (s : string) :
  BasePath.startsWith s "/" = true -> exists rest, s = String "/" rest.
Proof.
  destruct s as [ | c s]; [discriminate | ].
  change (BasePath.startsWith (String c s) "/")
    with (Ascii.eqb "/" c && true).
  rewrite andb_true_r. intros E.
  apply Ascii.eqb_eq in E. subst c. now eexists.
Qed.

(** Stripping keeps the first character of what it keeps. *)
Lemma strip_trailing_slashes_head (c : ascii) (s : string) :
  BasePath.strip_trailing_slashes (String c s) = "" \/
  exists kept, BasePath.strip_trailing_slashes (String c s) = String c kept.
Proof.
  cbn. destruct (BasePath.strip_trailing_slashes s).
  - destruct (Ascii.eqb c "/"); [now left | right; now eexists].
  - right. now eexists.
Qed.

(** Whatever the environment holds, the base path is empty or begins with
    a slash. *)
Lemma BASE_PATH_shape (env : option string) :
  BasePath.BASE_PATH env = "" \/
  exists rest, BasePath.BASE_PATH env = String "/" rest.
Proof.
  unfold BasePath.BASE_PATH.
  destruct (String.eqb (BasePath.baseWithLeadingSlash env) "/");
    [now left | ].
  unfold BasePath.baseWithLeadingSlash.
  destruct (BasePath.truthy (BasePath.rawBasePath env)); [ | now left].
  destruct (BasePath.startsWith (BasePath.rawBasePath env) "/") eqn:Hs.
  - destruct (startsWith_slash_inv _ Hs) as [raw ->].
    apply strip_trailing_slashes_head.
  - apply strip_trailing_slashes_head.
Qed.

Lemma normalized_slash (path : string) :
  exists rest, BasePath.normalized path = String "/" rest.
Proof.
  unfold BasePath.normalized.
  destruct (BasePath.startsWith path "/") eqn:E; [ | now eexists].
  now apply startsWith_slash_inv.
Qed.

Lemma normalized_id (rest : string) :
  BasePath.normalized (String "/" rest) = String "/" rest.
Proof. reflexivity. Qed.

(** A string that begins with a slash and carries the base path already
    is returned as it is. *)
Lemma withBasePath_fixed (env : option string) (rest : string) :
  BasePath.BASE_PATH env = "" \/
  String "/" rest = BasePath.BASE_PATH env \/
  BasePath.startsWith (String "/" rest) (BasePath.BASE_PATH env ++ "/") = true ->
  BasePath.withBasePath env (String "/" rest) = String "/" rest.
Proof.
  intros H. unfold BasePath.withBasePath.
  rewrite truthy_String, normalized_id. cbn [negb].
  destruct (BasePath.truthy (BasePath.BASE_PATH env)) eqn:Ht;
    cbn [negb]; [ | reflexivity].
  destruct H as [H | [H | H]].
  - apply truthy_true in Ht. contradiction.
  - rewrite <- H, String.eqb_refl. reflexivity.
  - rewrite H, orb_true_r. reflexivity.
Qed.

Lemma withBasePath_cases (env : option string) (path : string) :
  exists rest,
    BasePath.withBasePath env path = String "/" rest /\
    (BasePath.BASE_PATH env = "" \/
     String "/" rest = BasePath.BASE_PATH env \/
     BasePath.startsWith (String "/" rest) (BasePath.BASE_PATH env ++ "/")
     = true).
Proof.
  unfold BasePath.withBasePath.
  destruct (BasePath.truthy path) eqn:Hp; cbn [negb].
  - destruct (normalized_slash path) as [rest Hn]. rewrite Hn.
    destruct (BasePath.truthy (BasePath.BASE_PATH env)) eqn:Ht; cbn [negb].
    + destruct (String.eqb (String "/" rest) (BasePath.BASE_PATH env))
        eqn:He; cbn [orb].
      * exists rest. split; [reflexivity | ].
        right; left. now apply String.eqb_eq.
      * destruct (BasePath.startsWith (String "/" rest)
                    (BasePath.BASE_PATH env ++ "/")) eqn:Hs.
        -- exists rest. split; [reflexivity | tauto].
        -- destruct (BASE_PATH_shape env) as [Hb | [brest Hb]].
           ++ apply truthy_true in Ht. contradiction.
           ++ exists (brest ++ String "/" rest).
              assert (E : String "/" (brest ++ String "/" rest)
                          = (BasePath.BASE_PATH env ++ "/") ++ rest)
                by (rewrite Hb, append_String_assoc; reflexivity).
              split; [rewrite Hb; reflexivity | ].
              right; right. rewrite E. apply startsWith_append.
    + exists rest. split; [reflexivity | ].
      left. now apply truthy_false.
  - destruct (BasePath.truthy (BasePath.BASE_PATH env)) eqn:Ht.
    + destruct (BASE_PATH_shape env) as [Hb | [brest Hb]].
      * apply truthy_true in Ht. contradiction.
      * exists brest. split; [exact Hb | ]. right; left. now symmetry.
    + exists "". split; [reflexivity | ].
      left. now apply truthy_false.
Qed.


Lemma startsWith_String_inv (s p : string) (c : ascii) :
  BasePath.startsWith s (String c p) = true -> exists rest, s = String c rest.
Proof.
  destruct s as [ | d s]; [discriminate | ].
  change (BasePath.startsWith (String d s) (String c p))
    with (Ascii.eqb c d && BasePath.startsWith s p).
  intros E. apply andb_true_iff in E. destruct E as [E _].
  apply Ascii.eqb_eq in E. subst d. now eexists.
Qed.

End BasePathFacts.

(** C10. For every string [path] and every value of the environment
    variable the base path is derived from, [withBasePath] is idempotent,
    [withBasePath(withBasePath(path)) = withBasePath(path)]; what it
    returns begins with a slash; and a path that is the base path or
    begins with the base path and a slash is returned as it is, not
    prefixed again. *)
Theorem withBasePath_idempotent (env : option string) (path : string) :
  BasePath.withBasePath env (BasePath.withBasePath env path)
  = BasePath.withBasePath env path /\
  BasePath.startsWith (BasePath.withBasePath env path) "/" = true /\
  (BasePath.truthy (BasePath.BASE_PATH env) = true ->
   path = BasePath.BASE_PATH env \/
   BasePath.startsWith path (BasePath.BASE_PATH env ++ "/") = true ->
   BasePath.withBasePath env path = path).
Proof.
  destruct (withBasePath_cases env path) as [rest [Hw Hc]].
  rewrite Hw. split; [now apply withBasePath_fixed | ].
  split; [reflexivity | ].
  intros Ht Hp.
  destruct (BASE_PATH_shape env) as [Hb | [brest Hb]];
    [apply truthy_true in Ht; contradiction | ].
  assert (Hs : exists r, path = String "/" r).
  { destruct Hp as [-> | Hp]; [eexists; exact Hb | ].
    rewrite Hb in Hp. now apply startsWith_String_inv in Hp. }
  destruct Hs as [r ->].
  rewrite <- Hw. apply withBasePath_fixed. right.
  destruct Hp as [-> | Hp]; [now left | now right].
Qed.

(** ** The relative-error score *)

Section FusionFacts.

Local Open Scope Q_scope.

Lemma clip01_range (x : Q) : 0 <= Fusion.clip01 x <= 1.
Proof.
  unfold Fusion.clip01. split.
  - apply Q.le_max_l.
  - apply Q.max_lub; [lra | apply Q.le_min_l].
Qed.

Lemma clip01_id (x : Q) : 0 <= x <= 1 -> Fusion.clip01 x == x.
Proof.
  intros [H0 H1]. unfold Fusion.clip01.
  rewrite (Q.min_r 1 x H1). now apply Q.max_r.
Qed.

Lemma clip01_nonpos (x : Q) : x <= 0 -> Fusion.clip01 x == 0.
Proof.
  intros H. unfold Fusion.clip01. apply Q.max_l.
  apply Qle_trans with x; [apply Q.le_min_r | exact H].
Qed.

Lemma clip01_monotone (x y : Q) :
  x <= y -> Fusion.clip01 x <= Fusion.clip01 y.
Proof.
  intros H. unfold Fusion.clip01.
  apply Q.max_le_compat_l. now apply Q.min_le_compat_l.
Qed.

(** A quotient by a denominator that is not positive is not positive. *)
Lemma Qdiv_nonpos (n d : Q) : 0 <= n -> d <= 0 -> n / d <= 0.
Proof.
  intros Hn Hd. unfold Qdiv.
  destruct (Qlt_le_dec d 0) as [Hlt | Hge].
  - assert (Hinv : / d < 0).
    { destruct d as [[ | p | p] q]; cbn in *; try discriminate;
        unfold Qlt in *; cbn in *; lia. }
    nra.
  - assert (E : d == 0) by lra. rewrite E. cbn. lra.
Qed.

Lemma Qdiv_le_compat (n m d : Q) : 0 < d -> n <= m -> n / d <= m / d.
Proof.
  intros Hd H. unfold Qdiv.
  apply Qmult_le_compat_r; [exact H | ].
  apply Qlt_le_weak. now apply Qinv_lt_0_compat.
Qed.

End FusionFacts.

(** C7. With the predicted headway and the floor constant fixed, a
    residual of larger magnitude never has a smaller relative-error score:
    if [|r1| <= |r2|], the score of [r1] is at most the score of [r2].
    (With a positive floor the denominator is positive; a denominator that
    is not positive gives a quotient that is not positive, clipped
    to 0.) *)
Theorem relative_error_score_monotone
  (floor predicted_headway_sec r1 r2 : Q) :
  (Qabs r1 <= Qabs r2)%Q ->
  (Fusion.relative_error_score floor r1 predicted_headway_sec
   <= Fusion.relative_error_score floor r2 predicted_headway_sec)%Q.
Proof.
  intros H. unfold Fusion.relative_error_score.
  destruct (Qlt_le_dec 0 (Qmax predicted_headway_sec floor)) as [Hd | Hd].
  - apply clip01_monotone. now apply Qdiv_le_compat.
  - rewrite (clip01_nonpos (Qabs r1 / Qmax predicted_headway_sec floor))
      by (apply Qdiv_nonpos; [apply Qabs_nonneg | exact Hd]).
    apply clip01_range.
Qed.

Lemma relative_error_score_monotone_witness :
  (Qabs 30 <= Qabs (-90))%Q /\
  (Fusion.relative_error_score 1 30 300
   <= Fusion.relative_error_score 1 (-90) 300)%Q.
Proof.
  assert (H : (Qabs 30 <= Qabs (-90))%Q) by (vm_compute; discriminate).
  split; [exact H | ].
  exact (relative_error_score_monotone 1 300 30 (-90) H).
Defined.

(** ** Score Fusion in binary64 *)

(** *** Rounding keeps the sign *)

Section RoundingSign.

Variables prec emax : Z.









End RoundingSign.

(** *** Products and sums of numbers that are not negative *)







(** *** [clip01] *)





(** * Further properties of the dashboard code *)

(** ** Clamping and bands at every number *)

(** Clamping a number does not move it across a threshold that lies
    above 0 and at most at 1. *)
Lemma clampScore_threshold (x t : spec_float) :
  Js.is_nan x = false ->
  SFltb (Js.lit 0) t = true -> SFleb t (Js.lit 1) = true ->
  SFleb t (Utils.clampScore (Js.Number x)) = SFleb t x /\
  SFltb (Utils.clampScore (Js.Number x)) t = SFltb x t.
Proof.
  intros Hn Ht0 Ht1.
  assert (Hnt : Js.is_nan t = false) by (destruct t; easy).
  unfold Utils.clampScore. cbn. rewrite Hn. unfold Js.lt, Js.gt.
  destruct (SFltb x (Js.lit 0)) eqn:E0.
  { split.
    - replace (SFleb t x) with false
        by (symmetry; to_keys; split_key x; split_key t; lia).
      to_keys; split_key t; lia.
    - replace (SFltb x t) with true
        by (symmetry; to_keys; split_key x; split_key t; lia).
      exact Ht0. }
  destruct (SFltb (Js.lit 1) x) eqn:E1; [ | split; reflexivity].
  split.
  - replace (SFleb t x) with true
      by (symmetry; to_keys; split_key x; split_key t; lia).
    exact Ht1.
  - replace (SFltb x t) with false
      by (symmetry; to_keys; split_key x; split_key t; lia).
    to_keys; split_key t; lia.
Qed.

(** The band of any number that is not NaN, by the cut points the number
    itself lies between. *)
Lemma scoreBand_band_case (x : spec_float) :
  Js.is_nan x = false ->
  Utils.band_case x (Utils.scoreBand (Js.Number x)).
Proof.
  intros Hn.
  destruct (clampScore_bounds (Js.Number x)) as [H0 H1].
  destruct (first_band_unit _ H0 H1) as [b [Hb Hc]].
  rewrite (scoreBand_first_band _ _ Hb).
  destruct (clampScore_threshold x (Js.lit 0.35) Hn eq_refl eq_refl)
    as [L35 U35].
  destruct (clampScore_threshold x (Js.lit 0.6) Hn eq_refl eq_refl)
    as [L60 U60].
  destruct (clampScore_threshold x (Js.lit 0.85) Hn eq_refl eq_refl)
    as [L85 U85].
  destruct Hc as [C1 -> | C1 C2 -> | C1 C2 -> | C1 ->].
  - apply Utils.case_low; congruence.
  - apply Utils.case_watch; congruence.
  - apply Utils.case_elevated; congruence.
  - apply Utils.case_critical; congruence.
Qed.

Lemma scoreBand_nan : Utils.scoreBand (Js.Number S754_nan) = Utils.band_low.
Proof. reflexivity. Qed.

(** X1. [clampScore] returns a number as it is exactly when the number
    lies in [[0,1]]: every other number, NaN included, is changed. *)
Theorem clampScore_fixed_points (x : spec_float) :
  Utils.clampScore (Js.Number x) = x <->
  Js.le (Js.lit 0) x = true /\ Js.le x (Js.lit 1) = true.
Proof.
  split.
  - intros H. pose proof (clampScore_bounds (Js.Number x)) as B.
    rewrite H in B. exact B.
  - intros [H0 H1]. now apply clampScore_unit.
Qed.

(** X2. Clamping twice is clamping once, and [scoreBand], [scoreToColor]
    and [scoreToTone] give for a clamped score what they give for the
    score itself, whatever the input. *)
Theorem clampScore_idempotent (v : Js.value) :
  Utils.clampScore (Js.Number (Utils.clampScore v)) = Utils.clampScore v /\
  Utils.scoreBand (Js.Number (Utils.clampScore v)) = Utils.scoreBand v /\
  Utils.scoreToColor (Utils.clampScore v) = Utils.color (Utils.scoreBand v) /\
  Utils.scoreToTone (Utils.clampScore v) = Utils.tone (Utils.scoreBand v).
Proof.
  assert (H : Utils.clampScore (Js.Number (Utils.clampScore v))
              = Utils.clampScore v)
    by (destruct (clampScore_bounds v); now apply clampScore_unit).
  assert (B : Utils.scoreBand (Js.Number (Utils.clampScore v))
              = Utils.scoreBand v)
    by (unfold Utils.scoreBand; now rewrite H).
  unfold Utils.scoreToColor, Utils.scoreToTone. rewrite B. tauto.
Qed.

(** X3. [clampScore] keeps the order of numbers: if [x <= y] then
    [clampScore(x) <= clampScore(y)]. *)
Theorem clampScore_monotone (x y : spec_float) :
  Js.le x y = true ->
  Js.le (Utils.clampScore (Js.Number x)) (Utils.clampScore (Js.Number y))
  = true.
Proof.
  unfold Js.le. intros H.
  destruct (SFleb_not_nan _ _ H) as [Hx Hy].
  unfold Utils.clampScore. cbn. rewrite Hx, Hy. unfold Js.lt, Js.gt.
  destruct (SFltb x (Js.lit 0)) eqn:X0, (SFltb y (Js.lit 0)) eqn:Y0;
    try destruct (SFltb (Js.lit 1) x) eqn:X1;
    try destruct (SFltb (Js.lit 1) y) eqn:Y1;
    try reflexivity;
    to_keys; split_key x; split_key y; lia.
Qed.

Lemma clampScore_monotone_witness :
  Js.le (Js.lit (-3)) (Js.lit 0.4) = true /\
  Js.le (Utils.clampScore (Js.Number (Js.lit (-3))))
    (Utils.clampScore (Js.Number (Js.lit 0.4))) = true.
Proof.
  split; [reflexivity | ].
  apply (clampScore_monotone (Js.lit (-3)) (Js.lit 0.4)). reflexivity.
Defined.

(** X4. A higher score never gets a lower band: if [x <= y], the band of
    [x] begins and ends no later than the band of [y]. *)
Theorem scoreBand_monotone (x y : spec_float) :
  Js.le x y = true ->
  Js.le (Utils.min (Utils.scoreBand (Js.Number x)))
    (Utils.min (Utils.scoreBand (Js.Number y))) = true /\
  Js.le (Utils.max (Utils.scoreBand (Js.Number x)))
    (Utils.max (Utils.scoreBand (Js.Number y))) = true.
Proof.
  unfold Js.le. intros H.
  destruct (SFleb_not_nan _ _ H) as [Hx Hy].
  pose proof (scoreBand_band_case x Hx) as Cx.
  pose proof (scoreBand_band_case y Hy) as Cy.
  destruct Cx as [X1 -> | X1 X2 -> | X1 X2 -> | X1 ->];
    destruct Cy as [Y1 -> | Y1 Y2 -> | Y1 Y2 -> | Y1 ->];
    cbn [Utils.min Utils.max Utils.band_low Utils.band_watch
         Utils.band_elevated Utils.band_critical];
    try (split; reflexivity);
    exfalso; to_keys; split_key x; split_key y; lia.
Qed.

Lemma scoreBand_monotone_witness :
  Js.le (Js.lit 0.5) (Js.lit 0.9) = true /\
  Js.le (Utils.min (Utils.scoreBand (Js.Number (Js.lit 0.5))))
    (Utils.min (Utils.scoreBand (Js.Number (Js.lit 0.9)))) = true.
Proof.
  split; [reflexivity | ].
  apply (scoreBand_monotone (Js.lit 0.5) (Js.lit 0.9)). reflexivity.
Defined.

(** X5. The text on a badge is dark, [#1f2937], exactly for the scores of
    the yellow band, [0.35 <= s < 0.6], and white, [#ffffff], for every
    other number, NaN and the numbers outside [[0,1]] included. *)
Theorem scoreToTextColor_dark_iff (s : spec_float) :
  (Utils.scoreToTextColor s = "#1f2937"%string <->
   Js.ge s (Js.lit 0.35) = true /\ Js.lt s (Js.lit 0.6) = true) /\
  (Utils.scoreToTextColor s = "#1f2937"%string \/
   Utils.scoreToTextColor s = "#ffffff"%string).
Proof.
  unfold Utils.scoreToTextColor, Js.ge, Js.lt.
  destruct (Js.is_nan s) eqn:Hn.
  { destruct s; try discriminate Hn. cbn. split; [ | now right].
    split; [discriminate | intros [H _]; discriminate]. }
  destruct (scoreBand_band_case s Hn) as [C1 E | C1 C2 E | C1 C2 E | C1 E];
    rewrite E; cbn [Utils.id Utils.band_low Utils.band_watch
                    Utils.band_elevated Utils.band_critical].
  - split; [ | now right].
    split; [discriminate | intros [H _]].
    exfalso; to_keys; split_key s; lia.
  - split; [ | now left]. tauto.
  - split; [ | now right].
    split; [discriminate | intros [_ H]].
    exfalso; to_keys; split_key s; lia.
  - split; [ | now right].
    split; [discriminate | intros [_ H]].
    exfalso; to_keys; split_key s; lia.
Qed.

(** ** Base paths, further *)

Section BasePathMore.

Local Open Scope string_scope.

Lemma strip_trailing_slashes_cons (c : ascii) (s : string) :
  BasePath.strip_trailing_slashes (String c s)
  = match BasePath.strip_trailing_slashes s with
    | "" => if Ascii.eqb c "/" then "" else String c ""
    | kept => String c kept
    end.
Proof. reflexivity. Qed.

Lemma strip_trailing_slashes_no_slash (s : string) :
  Aux.ends_with_slash (BasePath.strip_trailing_slashes s) = false.
Proof.
  induction s as [ | c s IH]; [reflexivity | ].
  rewrite strip_trailing_slashes_cons.
  destruct (BasePath.strip_trailing_slashes s) as [ | d kept].
  - destruct (Ascii.eqb c "/") eqn:E; [reflexivity | ].
    cbn [Aux.ends_with_slash]. exact E.
  - exact IH.
Qed.

(** Only a string of slashes is stripped to nothing. *)
Lemma strip_trailing_slashes_only_slashes (s : string) :
  BasePath.strip_trailing_slashes s = "" -> Aux.only_slashes s = true.
Proof.
  induction s as [ | c s IH]; [reflexivity | ].
  rewrite strip_trailing_slashes_cons.
  destruct (BasePath.strip_trailing_slashes s) as [ | d kept];
    [ | discriminate].
  destruct (Ascii.eqb c "/") eqn:E; [ | discriminate].
  intros _. cbn [Aux.only_slashes]. now rewrite E, IH.
Qed.

Lemma strip_trailing_slashes_leading (c : ascii) (s : string) :
  Ascii.eqb c "/" = false ->
  BasePath.strip_trailing_slashes (String "/" (String c s))
  = String "/" (BasePath.strip_trailing_slashes (String c s)).
Proof.
  intros E.
  rewrite (strip_trailing_slashes_cons "/" (String c s)).
  destruct (BasePath.strip_trailing_slashes (String c s)) eqn:K;
    [ | reflexivity].
  apply strip_trailing_slashes_only_slashes in K.
  cbn [Aux.only_slashes] in K. rewrite E in K. discriminate K.
Qed.

Lemma startsWith_refl (s : string) : BasePath.startsWith s s = true.
Proof.
  induction s as [ | c s IH]; [reflexivity | ].
  change (Ascii.eqb c c && BasePath.startsWith s s = true).
  now rewrite Ascii.eqb_refl, IH.
Qed.

Lemma startsWith_append_l (s p q : string) :
  BasePath.startsWith s (p ++ q) = true -> BasePath.startsWith s p = true.
Proof.
  revert s. induction p as [ | c p IH]; intros s; [reflexivity | ].
  destruct s as [ | d s]; [discriminate | ].
  change (Ascii.eqb c d && BasePath.startsWith s (p ++ q) = true ->
          Ascii.eqb c d && BasePath.startsWith s p = true).
  intros H. apply andb_true_iff in H. destruct H as [E H].
  now rewrite E, (IH s H).
Qed.

End BasePathMore.

(** X6. Whatever the environment variable holds, [BASE_PATH] is either
    empty or begins with a slash and does not end with one. *)
Theorem BASE_PATH_normal_form (env : option string) :
  BasePath.BASE_PATH env = ""%string \/
  (BasePath.startsWith (BasePath.BASE_PATH env) "/" = true /\
   Aux.ends_with_slash (BasePath.BASE_PATH env) = false).
Proof.
  destruct (BASE_PATH_shape env) as [H | [rest H]]; [now left | right].
  split; [now rewrite H | ].
  unfold BasePath.BASE_PATH.
  destruct (String.eqb (BasePath.baseWithLeadingSlash env) "/");
    [reflexivity | apply strip_trailing_slashes_no_slash].
Qed.

(** X7. What [withBasePath] returns is never empty and always begins with
    [BASE_PATH]: every path is placed under the base path. *)
Theorem withBasePath_under_base (env : option string) (path : string) :
  BasePath.withBasePath env path <> ""%string /\
  BasePath.startsWith (BasePath.withBasePath env path)
    (BasePath.BASE_PATH env) = true.
Proof.
  destruct (withBasePath_cases env path) as [rest [Hw Hc]].
  rewrite Hw. split; [discriminate | ].
  destruct Hc as [H | [H | H]].
  - now rewrite H.
  - rewrite <- H. apply startsWith_refl.
  - now apply startsWith_append_l in H.
Qed.

(** X8. The leading slash of a path is optional: for a path that is not
    empty and has none, [withBasePath] returns what it returns for the
    path with a slash put before it. *)
Theorem withBasePath_leading_slash (env : option string) (path : string) :
  path <> ""%string -> BasePath.startsWith path "/" = false ->
  BasePath.withBasePath env (String "/" path)
  = BasePath.withBasePath env path.
Proof.
  intros Hne Hs. unfold BasePath.withBasePath.
  apply truthy_true in Hne. rewrite Hne, truthy_String. cbn [negb].
  rewrite normalized_id. unfold BasePath.normalized. rewrite Hs.
  reflexivity.
Qed.

Lemma withBasePath_leading_slash_witness :
  "api/stops"%string <> ""%string /\
  BasePath.startsWith "api/stops" "/" = false /\
  BasePath.withBasePath (Some "/nyc-subway-anomaly"%string)
    (String "/" "api/stops")
  = BasePath.withBasePath (Some "/nyc-subway-anomaly"%string) "api/stops".
Proof.
  split; [discriminate | ]. split; [reflexivity | ].
  apply (withBasePath_leading_slash (Some "/nyc-subway-anomaly"%string)
           "api/stops"); [discriminate | reflexivity].
Defined.

(** X9. The base path of [next.config.js] and the [BASE_PATH] of
    [basePath.ts] come from the same variable and agree when its value is
    empty, unset or begins with a slash; for any other value [BASE_PATH]
    is the configured base path with a slash put before it. *)
Theorem BASE_PATH_matches_next_config (env : option string) :
  (BasePath.rawBasePath env = ""%string \/
   BasePath.startsWith (BasePath.rawBasePath env) "/" = true ->
   BasePath.BASE_PATH env = NextConfig.basePath env) /\
  (BasePath.rawBasePath env <> ""%string ->
   BasePath.startsWith (BasePath.rawBasePath env) "/" = false ->
   BasePath.BASE_PATH env = String "/" (NextConfig.basePath env)).
Proof.
  unfold BasePath.BASE_PATH, NextConfig.basePath,
    BasePath.baseWithLeadingSlash.
  split.
  - intros [H | H].
    + rewrite H. reflexivity.
    + rewrite H.
      destruct (BasePath.truthy (BasePath.rawBasePath env)) eqn:T;
        [reflexivity | ].
      apply truthy_false in T. rewrite T. reflexivity.
  - intros Hne Hs. apply truthy_true in Hne. rewrite Hne, Hs.
    destruct (BasePath.rawBasePath env) as [ | c raw] eqn:R;
      [discriminate Hne | ].
    assert (E : Ascii.eqb c "/" = false).
    { destruct (Ascii.eqb c "/") eqn:E; [ | reflexivity].
      apply Ascii.eqb_eq in E. subst c. discriminate Hs. }
    assert (N1 : String.eqb (String c raw) "/" = false).
    { apply String.eqb_neq. intros K. inversion K. subst c. discriminate E. }
    assert (N2 : String.eqb ("/" ++ String c raw) "/" = false)
      by (apply String.eqb_neq; discriminate).
    rewrite N1, N2.
    now apply strip_trailing_slashes_leading.
Qed.

(** ** The pages of the table *)

Section Pages.

Context {A : Type}.
Implicit Types (rows l : list A) (page p : Z).

Local Open Scope Z_scope.

Lemma ceil_div_spec (a b : Z) :
  0 < b -> 0 <= a ->
  b * (AnomalyTable.ceil_div a b - 1) < a <= b * AnomalyTable.ceil_div a b \/
  (a = 0 /\ AnomalyTable.ceil_div a b = 0).
Proof.
  intros Hb Ha. unfold AnomalyTable.ceil_div.
  pose proof (Z.div_mod (- a) b ltac:(lia)) as E.
  pose proof (Z.mod_pos_bound (- a) b Hb) as M.
  destruct (Z.eq_dec a 0) as [-> | Hne]; [right; split; reflexivity | left].
  nia.
Qed.

Lemma totalPages_spec rows :
  1 <= AnomalyTable.totalPages rows /\
  Z.of_nat (List.length rows) <= 20 * AnomalyTable.totalPages rows /\
  (rows <> [] ->
   20 * (AnomalyTable.totalPages rows - 1) < Z.of_nat (List.length rows)).
Proof.
  unfold AnomalyTable.totalPages, AnomalyTable.pageSize.
  destruct (ceil_div_spec (Z.of_nat (List.length rows)) 20
              ltac:(lia) ltac:(lia)) as [H | [H0 H1]].
  - repeat split; try lia.
    intros Hne.
    assert (0 < Z.of_nat (List.length rows))
      by (destruct rows; [contradiction | cbn [List.length]; lia]).
    lia.
  - rewrite H1. repeat split; try lia.
    intros Hne. destruct rows; [contradiction | cbn in H0; lia].
Qed.

(** Within the bounds of the array, [slice] takes a stretch of it. *)
Lemma slice_inside l (i n : nat) :
  JsStd.slice l (Z.of_nat i) (Z.of_nat i + Z.of_nat n)
  = firstn n (skipn i l).
Proof.
  unfold JsStd.slice.
  assert (Hi : (Z.of_nat i <? 0) = false) by (apply Z.ltb_ge; lia).
  assert (Hn : (Z.of_nat i + Z.of_nat n <? 0) = false)
    by (apply Z.ltb_ge; lia).
  rewrite Hi, Hn.
  destruct (Nat.le_gt_cases (List.length l) i) as [Hout | Hin].
  - rewrite (skipn_all2 l) by lia.
    rewrite (skipn_all2 l) by lia.
    now rewrite !firstn_nil.
  - replace (Z.to_nat (Z.min (Z.of_nat i) (Z.of_nat (List.length l))))
      with i by lia.
    destruct (Nat.le_gt_cases (i + n) (List.length l)) as [Hfit | Hcut].
    + f_equal. lia.
    + replace (Z.to_nat
                 (Z.min (Z.of_nat i + Z.of_nat n) (Z.of_nat (List.length l))
                  - Z.min (Z.of_nat i) (Z.of_nat (List.length l))))
        with (List.length l - i)%nat by lia.
      rewrite !firstn_all2; try reflexivity; rewrite length_skipn; lia.
Qed.

Lemma paged_stretch rows page :
  1 <= page ->
  AnomalyTable.paged rows page
  = firstn 20
      (skipn (Z.to_nat (20 * (AnomalyTable.currentPage rows page - 1))) rows).
Proof.
  intros Hp. unfold AnomalyTable.paged, AnomalyTable.pageSize.
  pose proof (totalPages_spec rows) as [T1 _].
  assert (C1 : 1 <= AnomalyTable.currentPage rows page)
    by (unfold AnomalyTable.currentPage; lia).
  set (k := Z.to_nat (20 * (AnomalyTable.currentPage rows page - 1))).
  replace ((AnomalyTable.currentPage rows page - 1) * 20)
    with (Z.of_nat k) by lia.
  exact (slice_inside rows k 20).
Qed.

(** Pieces of [k] elements put back together: the first [n] pieces of a
    list of at most [n * k] elements are the list. *)
Lemma concat_pieces (k n : nat) l :
  (List.length l <= n * k)%nat ->
  List.concat (List.map (fun i => firstn k (skipn (i * k) l)) (List.seq 0 n))
  = l.
Proof.
  revert l. induction n as [ | n IH]; intros l Hl.
  - destruct l; [reflexivity | cbn in Hl; lia].
  - cbn [List.seq List.map List.concat]. rewrite <- seq_shift, List.map_map.
    cbn [Nat.mul skipn].
    transitivity (firstn k l ++ skipn k l); [ | apply firstn_skipn].
    f_equal.
    transitivity
      (List.concat
         (List.map (fun i => firstn k (skipn (i * k) (skipn k l)))
            (List.seq 0 n))).
    + f_equal. apply List.map_ext. intros i.
      rewrite skipn_skipn. f_equal. f_equal. cbn. lia.
    + apply IH. rewrite length_skipn. lia.
Qed.

Lemma page_window_aux (rows : list A) (page : Z) :
  1 <= page ->
  1 <= AnomalyTable.currentPage rows page <= AnomalyTable.totalPages rows /\
  (List.length (AnomalyTable.paged rows page) <= 20)%nat /\
  (rows <> [] -> AnomalyTable.paged rows page <> []).
Proof.
  intros Hp.
  destruct (totalPages_spec rows) as (T1 & T2 & T3).
  assert (C : 1 <= AnomalyTable.currentPage rows page
              <= AnomalyTable.totalPages rows)
    by (unfold AnomalyTable.currentPage; lia).
  split; [exact C | ].
  rewrite (paged_stretch rows page Hp).
  split; [apply firstn_le_length | ].
  intros Hne. specialize (T3 Hne).
  set (k := Z.to_nat (20 * (AnomalyTable.currentPage rows page - 1))).
  assert (Hk : (k < List.length rows)%nat) by lia.
  destruct (skipn k rows) as [ | r rest] eqn:E; [ | discriminate].
  apply (f_equal (@List.length A)) in E.
  rewrite length_skipn in E. cbn in E. lia.
Qed.

End Pages.

(** X10. With the page state at least 1, as the handlers keep it, the
    page shown lies between 1 and [totalPages], and is the page asked for
    when there is one; its rows are the at most twenty rows that follow
    the earlier pages, and there is at least one when the table has
    rows. *)
Theorem page_window {A : Type} (rows : list A) (page : Z) :
  (1 <= page)%Z ->
  (1 <= AnomalyTable.currentPage rows page <= AnomalyTable.totalPages rows)%Z /\
  ((page <= AnomalyTable.totalPages rows)%Z ->
   AnomalyTable.currentPage rows page = page) /\
  AnomalyTable.paged rows page
  = firstn 20
      (skipn (Z.to_nat (20 * (AnomalyTable.currentPage rows page - 1))) rows) /\
  (List.length (AnomalyTable.paged rows page) <= 20)%nat /\
  (rows <> [] -> AnomalyTable.paged rows page <> []).
Proof.
  intros Hp.
  destruct (page_window_aux rows page Hp) as (C & L & N).
  split; [exact C | ].
  split; [unfold AnomalyTable.currentPage; lia | ].
  split; [exact (paged_stretch rows page Hp) | ].
  split; assumption.
Qed.

Lemma page_window_witness :
  (1 <= 3)%Z /\
  AnomalyTable.paged (List.seq 0 45) 3 = [40; 41; 42; 43; 44]%nat.
Proof.
  split; [lia | ].
  destruct (page_window (List.seq 0 45) 3 ltac:(lia)) as (_ & _ & H & _).
  rewrite H. reflexivity.
Defined.

(** X11. The pages [1 .. totalPages], one after the other, are the rows:
    paging drops no row, repeats none and keeps the order. *)
Theorem pages_partition {A : Type} (rows : list A) :
  List.concat
    (List.map (AnomalyTable.paged rows)
       (Aux.pages (AnomalyTable.totalPages rows)))
  = rows.
Proof.
  destruct (totalPages_spec rows) as (T1 & T2 & _).
  unfold Aux.pages. rewrite List.map_map.
  rewrite <- (concat_pieces 20 (Z.to_nat (AnomalyTable.totalPages rows)) rows)
    at 2 by lia.
  f_equal. apply List.map_ext_in. intros i Hi.
  apply in_seq in Hi.
  rewrite paged_stretch by lia.
  replace (AnomalyTable.currentPage rows (Z.of_nat i + 1))
    with (Z.of_nat i + 1)%Z by (unfold AnomalyTable.currentPage; lia).
  f_equal. f_equal. lia.
Qed.

(** X12. The handlers of "Prev" and "Next" keep the page state at least 1,
    and "Next" never takes it past the last page.  When the state is a
    page of the table, a button that is not disabled moves the page shown
    by exactly one, and a disabled one would leave it where it is.  When
    the state has run past the last page (the table got shorter), "Prev"
    leaves the last page shown. *)
Theorem page_buttons {A : Type} (rows : list A) (page : Z) :
  (1 <= page)%Z ->
  (1 <= AnomalyTable.onPrev page)%Z /\
  (1 <= AnomalyTable.onNext rows page <= AnomalyTable.totalPages rows)%Z /\
  ((page <= AnomalyTable.totalPages rows)%Z ->
   AnomalyTable.currentPage rows (AnomalyTable.onNext rows page)
   = (if AnomalyTable.nextDisabled rows page then page else page + 1)%Z /\
   AnomalyTable.currentPage rows (AnomalyTable.onPrev page)
   = (if AnomalyTable.prevDisabled rows page then page else page - 1)%Z) /\
  ((AnomalyTable.totalPages rows < page)%Z ->
   AnomalyTable.currentPage rows (AnomalyTable.onPrev page)
   = AnomalyTable.currentPage rows page).
Proof.
  intros Hp.
  destruct (totalPages_spec rows) as (T1 & _).
  unfold AnomalyTable.onPrev, AnomalyTable.onNext, AnomalyTable.currentPage,
    AnomalyTable.nextDisabled, AnomalyTable.prevDisabled,
    AnomalyTable.currentPage.
  repeat split; try lia.
  - destruct (Z.leb_spec (AnomalyTable.totalPages rows)
                (Z.min page (AnomalyTable.totalPages rows))); lia.
  - destruct (Z.leb_spec (Z.min page (AnomalyTable.totalPages rows)) 1); lia.
Qed.

Lemma page_buttons_witness :
  (1 <= 2)%Z /\
  AnomalyTable.currentPage (List.seq 0 45)
    (AnomalyTable.onNext (List.seq 0 45) 2) = 3%Z.
Proof.
  split; [lia | ].
  destruct (page_buttons (List.seq 0 45) 2 ltac:(lia)) as (_ & _ & H & _).
  destruct (H ltac:(vm_compute; discriminate)) as [Hn _].
  rewrite Hn. reflexivity.
Defined.

(** X13. The circle of a feature on the map and the badge of the same
    feature in the popup and the table have one colour, whatever the
    [anomaly_score] is: a number of [[0,1]], a number outside it, NaN,
    null or missing.  The badge takes [Number(anomaly_score ?? 0)], the
    layer the [step] expression. *)
Theorem map_and_badge_agree (anomaly_score : Js.value) :
  Mapbox.eval_step (Mapbox.feature anomaly_score)
    Mapbox.mapboxScoreColorExpression
  = Some (Utils.scoreToColor (AnomalyTable.row_score anomaly_score)) /\
  Utils.scoreBand (Js.Number (AnomalyTable.row_score anomaly_score))
  = Utils.scoreBand anomaly_score.
Proof.
  assert (B : Utils.scoreBand (Js.Number (AnomalyTable.row_score anomaly_score))
              = Utils.scoreBand anomaly_score)
    by (destruct anomaly_score; reflexivity).
  split; [ | exact B].
  unfold Utils.scoreToColor. rewrite B.
  apply mapbox_color_any_value.
Qed.

(** X14. In every state the table reaches from its first one, by fetches
    that answer with any rows, changes of route and clicks of the two
    buttons in any order, the page state is at least 1; so the page shown
    is one of [1 .. totalPages], it holds at most twenty rows, and it
    holds a row whenever the table has one, also after a fetch made the
    table shorter than the page state. *)
Theorem page_state_invariant {A : Type} (es : list (AnomalyTable.event A)) :
  let s := AnomalyTable.run AnomalyTable.initial es in
  (1 <= AnomalyTable.page s)%Z /\
  (1 <= AnomalyTable.currentPage (AnomalyTable.rows s) (AnomalyTable.page s)
   <= AnomalyTable.totalPages (AnomalyTable.rows s))%Z /\
  (List.length (AnomalyTable.paged (AnomalyTable.rows s) (AnomalyTable.page s))
   <= 20)%nat /\
  (AnomalyTable.rows s <> [] ->
   AnomalyTable.paged (AnomalyTable.rows s) (AnomalyTable.page s) <> []).
Proof.
  cbv zeta.
  assert (I : forall (s0 : AnomalyTable.state A),
             (1 <= AnomalyTable.page s0)%Z ->
             (1 <= AnomalyTable.page (AnomalyTable.run s0 es))%Z).
  { unfold AnomalyTable.run. induction es as [ | e es' IH]; intros s0 H0.
    - exact H0.
    - cbn [List.fold_left]. apply IH.
      destruct (totalPages_spec (AnomalyTable.rows s0)) as (T1 & _).
      destruct e; cbn [AnomalyTable.step AnomalyTable.page];
        unfold AnomalyTable.onPrev, AnomalyTable.onNext; lia. }
  specialize (I AnomalyTable.initial ltac:(cbn; lia)).
  set (s := AnomalyTable.run AnomalyTable.initial es) in *.
  destruct (page_window_aux (AnomalyTable.rows s) (AnomalyTable.page s) I)
    as (W1 & W2 & W3).
  repeat split; try assumption; lia.
Qed.
